(** * The interactive calculator of [calculator.py]

    A shallow embedding of the program and of the part of the Python
    runtime it relies on ([float], [repr] of a float, [input], [print]),
    followed by the properties of its arithmetic functions and of its
    read-dispatch-print loop. *)

From Stdlib Require Import ZArith List Bool Ascii String Lia DecimalString.
From Stdlib Require Import Floats.SpecFloat.
Import ListNotations.
Open Scope Z_scope.

(** ** Python floats

    A Python [float] is an IEEE-754 binary64 number.  Its values and
    arithmetic are those of the Standard Library's specification of
    binary floating point, [SpecFloat], at precision 53 and maximal
    exponent 1024; [S754_finite s m e] is the number [(-1)^s * m * 2^e].
    The module also embeds the two conversions the program goes through:
    [float(str)], the correctly rounded reading of a decimal literal, and
    [repr(float)], the shortest decimal string that reads back to the
    same number. *)

Module PyFloat.

Definition prec : Z := 53.
Definition emax : Z := 1024.

Definition float := spec_float.

(** [a + b], [a - b], [a * b] and [a == b] on floats. *)
Definition fadd : float -> float -> float := SFadd prec emax.
Definition fsub : float -> float -> float := SFsub prec emax.
Definition fmul : float -> float -> float := SFmul prec emax.
Definition feq : float -> float -> bool := SFeqb.

Definition is_finite (x : float) : bool :=
  match x with
  | S754_zero _ | S754_finite _ _ _ => true
  | _ => false
  end.

Definition is_nan (x : float) : bool :=
  match x with S754_nan => true | _ => false end.

(** The double nearest to [(-1)^s * m * 10^e], ties to even: an integer
    is rounded as it is, a quotient [m / 10^d] through the division with
    remainder that also rounds the quotient of two floats.  Too large a
    value gives an infinity, too small a one a zero. *)
Definition round_decimal (s : bool) (m : positive) (e : Z) : float :=
  match e with
  | Zneg d =>
      let '(q, e', l) :=
        SFdiv_core_binary prec emax (Zpos m) 0 (Zpos (10 ^ d)) 0 in
      binary_round_aux prec emax s q e' l
  | Z0 => binary_round prec emax s m 0
  | Zpos d => binary_round prec emax s (m * 10 ^ d) 0
  end.

(** *** Reading a float: [float(s)]

    A [str] is taken as the list of its code points, each below 256.  The
    functions follow the ones CPython goes through, in their order:
    underscores are checked and removed, whitespace is stripped at both
    ends, and the rest must be, in full, a decimal literal or a spelling
    of infinity or NaN. *)

Definition code (c : ascii) : N := N_of_ascii c.

Definition is_digit (c : ascii) : bool :=
  ((48 <=? code c) && (code c <=? 57))%N.

Definition digit_value (c : ascii) : Z := Z.of_N (code c) - 48.

(** Whitespace for [float]: the C locale's [isspace] (tab, line feed,
    vertical tab, form feed, carriage return, space) and the two
    whitespace code points between 128 and 255 (next line, no-break
    space). *)
Definition is_space (c : ascii) : bool :=
  match code c with
  | 9 | 10 | 11 | 12 | 13 | 32 | 133 | 160 => true
  | _ => false
  end%N.

Definition to_lower (c : ascii) : ascii :=
  if ((65 <=? code c) && (code c <=? 90))%N
  then ascii_of_N (code c + 32) else c.

Definition is_underscore (c : ascii) : bool := Ascii.eqb c "_".

(** An underscore is accepted only between two digits; [prev] is the
    character before [l].  The result is [l] without its underscores. *)
Fixpoint strip_underscores (prev : ascii) (l : list ascii)
  : option (list ascii) :=
  match l with
  | [] => if is_underscore prev then None else Some []
  | c :: t =>
      if is_underscore c then
        if is_digit prev then strip_underscores c t else None
      else if is_underscore prev && negb (is_digit c) then None
      else option_map (cons c) (strip_underscores c t)
  end.

Fixpoint skip_spaces (l : list ascii) : list ascii :=
  match l with
  | c :: t => if is_space c then skip_spaces t else l
  | [] => []
  end.

(** Trailing whitespace is dropped as long as more than one character
    is left; [drop_trailing] works on the reversed list. *)
Fixpoint drop_trailing (l : list ascii) : list ascii :=
  match l with
  | c :: (_ :: _) as t => if is_space c then drop_trailing t else l
  | _ => l
  end.

Definition strip_trailing (l : list ascii) : list ascii :=
  rev (drop_trailing (rev l)).

Definition take_sign (l : list ascii) : bool * list ascii :=
  match l with
  | "-"%char :: t => (true, t)
  | "+"%char :: t => (false, t)
  | _ => (false, l)
  end.

Fixpoint span_digits (l : list ascii) : list ascii * list ascii :=
  match l with
  | c :: t =>
      if is_digit c then let '(d, r) := span_digits t in (c :: d, r)
      else ([], l)
  | [] => ([], [])
  end.

Definition digits_value (l : list ascii) : Z :=
  fold_left (fun a c => 10 * a + digit_value c) l 0.

Fixpoint skip_zeros (l : list ascii) : list ascii :=
  match l with
  | c :: t => if Ascii.eqb c "0" then skip_zeros t else l
  | [] => []
  end.

(** A literal with more significant digits, or more digits after the
    point, than this is refused. *)
Definition MAX_DIGITS : Z := 1000000000.

Definition is_exp_mark (c : ascii) : bool :=
  Ascii.eqb c "e" || Ascii.eqb c "E".

(** An exponent mark counts only when at least one digit follows it and
    its optional sign; otherwise it is left unread. *)
Definition parse_exponent (l : list ascii) : Z * list ascii :=
  match l with
  | c :: t =>
      if is_exp_mark c then
        let '(esign, t1) := take_sign t in
        let '(ed, t2) := span_digits t1 in
        match ed with
        | [] => (0, l)
        | _ => (if esign then - digits_value ed else digits_value ed, t2)
        end
      else (0, l)
  | [] => (0, l)
  end.

(** Sign, digits, optional point and digits, optional exponent; at
    least one digit before the exponent.  Gives the value and what is
    left of the input. *)
Definition strtod (l : list ascii) : option (float * list ascii) :=
  let '(sign, l1) := take_sign l in
  let '(ip, l2) := span_digits l1 in
  let '(fp, l3) :=
    match l2 with
    | "."%char :: t => span_digits t
    | _ => ([], l2)
    end in
  match ip ++ fp with
  | [] => None
  | ds =>
      if (MAX_DIGITS <? Z.of_nat (List.length (skip_zeros ds)))
         || (MAX_DIGITS <? Z.of_nat (List.length fp))
      then None
      else
        let '(e, l4) := parse_exponent l3 in
        match digits_value ds with
        | Zpos m => Some (round_decimal sign m (e - Z.of_nat (List.length fp)), l4)
        | _ => Some (S754_zero sign, l4)
        end
  end.

(** [t] (in lower case) is a prefix of [l] up to case; gives the rest
    of [l]. *)
Fixpoint case_insensitive_match (l t : list ascii) : option (list ascii) :=
  match t with
  | [] => Some l
  | b :: t' =>
      match l with
      | c :: l' =>
          if Ascii.eqb (to_lower c) b then case_insensitive_match l' t'
          else None
      | [] => None
      end
  end.

Definition parse_inf_or_nan (l : list ascii) : option (float * list ascii) :=
  let '(negate, s) := take_sign l in
  match case_insensitive_match s (list_ascii_of_string "inf") with
  | Some s1 =>
      match case_insensitive_match s1 (list_ascii_of_string "inity") with
      | Some s2 => Some (S754_infinity negate, s2)
      | None => Some (S754_infinity negate, s1)
      end
  | None =>
      match case_insensitive_match s (list_ascii_of_string "nan") with
      | Some s1 => Some (S754_nan, s1)
      | None => None
      end
  end.

Definition string_to_double (l : list ascii) : option (float * list ascii) :=
  match strtod l with
  | Some r => Some r
  | None => parse_inf_or_nan l
  end.

(** The literal must take the whole of the stripped string. *)
Definition float_from_string_inner (l : list ascii) : option float :=
  match skip_spaces l with
  | [] => None
  | s =>
      match string_to_double (strip_trailing s) with
      | Some (x, []) => Some x
      | _ => None
      end
  end.

(** [float(s)]: [None] stands for the [ValueError]. *)
Definition float_of_str (s : string) : option float :=
  match strip_underscores zero (list_ascii_of_string s) with
  | Some l => float_from_string_inner l
  | None => None
  end.

(** *** Writing a float: [repr(x)]

    The digits are the shortest decimal that reads back to [x], the
    nearest to [x] when there are several, found by trying one digit,
    then two, and so on; seventeen always suffice. *)

(** Same floating-point datum (not [==]: a NaN is itself, the two zeros
    differ). *)
Definition float_eqb (x y : float) : bool :=
  match x, y with
  | S754_zero s1, S754_zero s2 => Bool.eqb s1 s2
  | S754_infinity s1, S754_infinity s2 => Bool.eqb s1 s2
  | S754_nan, S754_nan => true
  | S754_finite s1 m1 e1, S754_finite s2 m2 e2 =>
      Bool.eqb s1 s2 && Pos.eqb m1 m2 && Z.eqb e1 e2
  | _, _ => false
  end.

(** [m * 2^e] as a fraction of two integers. *)
Definition fraction (m : positive) (e : Z) : Z * Z :=
  match e with
  | Zneg k => (Zpos m, Zpos (2 ^ k))
  | _ => (Zpos m * 2 ^ e, 1)
  end.

(** The decimal exponent [E] of [num / den]: [10^E <= num / den < 10^(E+1)]. *)
Fixpoint log10_up (fuel : nat) (num den E : Z) : Z :=
  match fuel with
  | O => E
  | S f => if den * 10 <=? num then log10_up f num (den * 10) (E + 1) else E
  end.

Fixpoint log10_down (fuel : nat) (num den E : Z) : Z :=
  match fuel with
  | O => E
  | S f => if num <? den then log10_down f (num * 10) den (E - 1) else E
  end.

Definition floor_log10 (num den : Z) : Z :=
  let fuel := S (Z.to_nat (Z.log2 num + Z.log2 den)) in
  if den <=? num then log10_up fuel num den 0
  else log10_down fuel num den 0.

(** [num / den / 10^k] as a fraction. *)
Definition scale10 (num den k : Z) : Z * Z :=
  match k with
  | Zneg d => (num * Zpos (10 ^ d), den)
  | Z0 => (num, den)
  | Zpos d => (num, den * Zpos (10 ^ d))
  end.

Definition round_trips (x : float) (c k : Z) : bool :=
  match c with
  | Zpos p => float_eqb (round_decimal false p k) x
  | _ => false
  end.

(** With [n] digits the candidates are the two [n]-digit decimals
    [lo * 10^k] and [(lo + 1) * 10^k] around [x]; [nearest] is the one
    nearer to [x], the even one on a tie. *)
Fixpoint shortest (fuel : nat) (x : float) (num den E n : Z) : Z * Z :=
  let k := E - (n - 1) in
  let '(N, D) := scale10 num den k in
  let lo := N / D in
  let r := N mod D in
  let nearest :=
    match 2 * r ?= D with
    | Lt => lo
    | Gt => lo + 1
    | Eq => if Z.even lo then lo else lo + 1
    end in
  match fuel with
  | O => (nearest, k)
  | S f =>
      match round_trips x lo k, round_trips x (lo + 1) k with
      | true, true => (nearest, k)
      | true, false => (lo, k)
      | false, true => (lo + 1, k)
      | false, false => shortest f x num den E (n + 1)
      end
  end.

Definition decimal_digits (c : Z) : string :=
  NilZero.string_of_uint (N.to_uint (Z.to_N c)).

Fixpoint drop_zeros (l : list ascii) : list ascii :=
  match l with
  | c :: t => if Ascii.eqb c "0" then drop_zeros t else l
  | [] => []
  end.

Definition strip_trailing_zeros (s : string) : string :=
  string_of_list_ascii (rev (drop_zeros (rev (list_ascii_of_string s)))).

(** The digits, without trailing zeros, and the position of the decimal
    point relative to their start. *)
Definition dtoa (m : positive) (e : Z) : string * Z :=
  let '(num, den) := fraction m e in
  let E := floor_log10 num den in
  let '(c, k) := shortest 16 (S754_finite false m e) num den E 1 in
  let ds := decimal_digits c in
  (strip_trailing_zeros ds, k + Z.of_nat (String.length ds)).

Fixpoint zeros (n : nat) : string :=
  match n with
  | O => EmptyString
  | S n' => String "0" (zeros n')
  end.

(** The exponent as C's [%+.02d] writes it. *)
Definition format_exponent (e : Z) : string :=
  let a := decimal_digits (Z.abs e) in
  let sgn := if e <? 0 then "-"%string else "+"%string in
  let pad := if Z.abs e <? 10 then "0"%string else ""%string in
  (sgn ++ pad ++ a)%string.

(** The layout of [repr]: exponent notation when the point would stand
    more than 16 places to the right of the first digit or 4 or more to
    its left, plain notation otherwise, always with a digit after the
    point. *)
Definition format_digits (digits : string) (decpt : Z) : string :=
  let len := Z.of_nat (String.length digits) in
  if (decpt <=? -4) || (16 <? decpt) then
    let mant :=
      match digits with
      | String d EmptyString => digits
      | String d rest => String d (String "." rest)
      | EmptyString => digits
      end in
    (mant ++ "e" ++ format_exponent (decpt - 1))%string
  else if decpt <=? 0 then
    ("0." ++ zeros (Z.to_nat (- decpt)) ++ digits)%string
  else if decpt <? len then
    (substring 0 (Z.to_nat decpt) digits ++ "."
       ++ substring (Z.to_nat decpt) (Z.to_nat (len - decpt)) digits)%string
  else
    (digits ++ zeros (Z.to_nat (decpt - len)) ++ ".0")%string.

Definition float_repr (x : float) : string :=
  match x with
  | S754_nan => "nan"
  | S754_infinity s => if s then "-inf" else "inf"
  | S754_zero s => if s then "-0.0" else "0.0"
  | S754_finite s m e =>
      let '(digits, decpt) := dtoa m e in
      let sgn := if s then "-"%string else ""%string in
      (sgn ++ format_digits digits decpt)%string
  end.

End PyFloat.


(** ** The slice of the interpreter the program runs on

    Standard input is the list of lines still to be read, standard output
    the list of what has been written so far.  Output written before an
    exception is raised stays written, so the world is threaded through
    both outcomes of a computation. *)

Module Py.

Import PyFloat.

Inductive exn : Type :=
  | ValueError
  | EOFError.

Inductive out_event : Type :=
  | Printed (line : string)
  | Prompted (prompt : string).

Record world : Type := World {
  stdin : list string;
  stdout : list out_event
}.

Inductive result (A : Type) : Type :=
  | Return (a : A)
  | Raise (e : exn).

Arguments Return {A} a.
Arguments Raise {A} e.

Definition io (A : Type) : Type := world -> result A * world.

Definition ret {A : Type} (a : A) : io A := fun w => (Return a, w).

Definition bind {A B : Type} (c : io A) (k : A -> io B) : io B :=
  fun w =>
    match c w with
    | (Return a, w') => k a w'
    | (Raise e, w') => (Raise e, w')
    end.

Definition raise {A : Type} (e : exn) : io A := fun w => (Raise e, w).

Definition write (ev : out_event) : io unit :=
  fun w => (Return tt, World (stdin w) (stdout w ++ [ev])).

(** [print(s)] writes the line [s]; [input(prompt)] writes the prompt,
    without a line end, then reads a line, or raises [EOFError] when none
    is left. *)
Definition print (s : string) : io unit := write (Printed s).

Definition read_line : io string :=
  fun w =>
    match stdin w with
    | line :: rest => (Return line, World rest (stdout w))
    | [] => (Raise EOFError, w)
    end.

Definition input (prompt : string) : io string :=
  bind (write (Prompted prompt)) (fun _ => read_line).

(** [float(s)] raises [ValueError] on a string that is not a float
    literal; an f-string field [{x}] of a float is its [repr]. *)
Definition float (s : string) : io PyFloat.float :=
  match float_of_str s with
  | Some x => ret x
  | None => raise ValueError
  end.

Definition format (x : PyFloat.float) : string := float_repr x.

(** [try: body / except ValueError: handler]: any other exception goes
    through. *)
Definition try_except_ValueError {A : Type} (body handler : io A) : io A :=
  fun w =>
    match body w with
    | (Raise ValueError, w') => handler w'
    | r => r
    end.

(** [while True]: the body says whether it left through [break].  The
    loop is unrolled [fuel] times; [None] means the fuel ran out before
    the loop ended. *)
Inductive ctl : Type :=
  | Break
  | Continue.

Fixpoint while_true (fuel : nat) (body : io ctl) (w : world)
  : option (result unit * world) :=
  match fuel with
  | O => None
  | S fuel' =>
      match body w with
      | (Return Break, w') => Some (Return tt, w')
      | (Return Continue, w') => while_true fuel' body w'
      | (Raise e, w') => Some (Raise e, w')
      end
  end.

Definition initial (lines : list string) : world := World lines [].

End Py.

Declare Scope io_scope.
Delimit Scope io_scope with io.
Notation "x <- c ;; k" := (Py.bind c (fun x => k))
  (at level 61, c at next level, right associativity) : io_scope.
Notation "c ;; k" := (Py.bind c (fun _ => k))
  (at level 61, right associativity) : io_scope.

(** ** The program *)

Module Calculator.

Import PyFloat Py.
Open Scope string_scope.
Open Scope io_scope.

(** The three functions are called as any Python function is, as
    computations in the world. *)
Definition add (a b : PyFloat.float) : io PyFloat.float := ret (fadd a b).

Definition subtract (a b : PyFloat.float) : io PyFloat.float := ret (fsub a b).

Definition multiply (a b : PyFloat.float) : io PyFloat.float := ret (fmul a b).

Definition choice_prompt : string :=
  String "010" "Enter choice (1/2/3) or 'q' to quit: ".
Definition first_prompt : string := "Enter first number: ".
Definition second_prompt : string := "Enter second number: ".
Definition invalid_input_msg : string :=
  "Invalid input! Please enter valid numbers.".
Definition invalid_choice_msg : string :=
  "Invalid choice! Please enter 1, 2, or 3.".

Definition is_operation (choice : string) : bool :=
  existsb (String.eqb choice) ["1"; "2"; "3"].

(** The body of the [try] block. *)
Definition operate (choice : string) : io unit :=
  num1 <- (s <- input first_prompt ;; float s) ;;
  num2 <- (s <- input second_prompt ;; float s) ;;
  if choice =? "1" then
    result <- add num1 num2 ;;
    print (format num1 ++ " + " ++ format num2 ++ " = " ++ format result)
  else if choice =? "2" then
    result <- subtract num1 num2 ;;
    print (format num1 ++ " - " ++ format num2 ++ " = " ++ format result)
  else if choice =? "3" then
    result <- multiply num1 num2 ;;
    print (format num1 ++ " * " ++ format num2 ++ " = " ++ format result)
  else ret tt.

(** The body of the [while True] loop. *)
Definition loop_body : io ctl :=
  choice <- input choice_prompt ;;
  if choice =? "q" then ret Break
  else
    (if is_operation choice then
       try_except_ValueError (operate choice) (print invalid_input_msg)
     else print invalid_choice_msg) ;;
    ret Continue.

Definition menu : io unit :=
  print "Simple Calculator" ;;
  print "1. Add" ;;
  print "2. Subtract" ;;
  print "3. Multiply".

(** [main()]: [Some (Return tt, w)] when it returns, [Some (Raise e, w)]
    when [e] leaves it uncaught. *)
Definition main (fuel : nat) (w : world) : option (result unit * world) :=
  match menu w with
  | (Return _, w') => while_true fuel loop_body w'
  | (Raise e, w') => Some (Raise e, w')
  end.

End Calculator.

(** ** One iteration of the loop *)

Import PyFloat Py Calculator.
Open Scope string_scope.
Open Scope list_scope.

(** The text a successful operation prints, written from the contract:
    operands and result around the operator symbol. *)
Definition operator_symbol (choice : string) : string :=
  if choice =? "1" then "+" else if choice =? "2" then "-" else "*".

Definition operation (choice : string) (a b : PyFloat.float) : PyFloat.float :=
  if choice =? "1" then fadd a b
  else if choice =? "2" then fsub a b
  else fmul a b.

Definition result_line (sym : string) (a b r : PyFloat.float) : string :=
  (format a ++ " " ++ sym ++ " " ++ format b ++ " = " ++ format r)%string.

Definition is_result_line (l : string) : Prop :=
  exists sym a b r, In sym ["+"; "-"; "*"] /\ l = result_line sym a b r.

Fixpoint has_char (c : ascii) (s : string) : bool :=
  match s with
  | EmptyString => false
  | String d s' => Ascii.eqb c d || has_char c s'
  end.

(** Lines of standard input an iteration took. *)
Definition lines_consumed (w w' : world) : nat :=
  List.length (stdin w) - List.length (stdin w').

(** What one iteration does, case by case on the lines still to be read:
    the outcome and the world it leaves. *)
Inductive iteration : world -> result ctl -> world -> Prop :=
  | iter_eof out :
      iteration (World [] out) (Raise EOFError)
        (World [] (out ++ [Prompted choice_prompt]))
  | iter_quit rest out :
      iteration (World ("q" :: rest) out) (Return Break)
        (World rest (out ++ [Prompted choice_prompt]))
  | iter_invalid_choice choice rest out :
      (choice =? "q") = false ->
      is_operation choice = false ->
      iteration (World (choice :: rest) out) (Return Continue)
        (World rest (out ++ [Prompted choice_prompt] ++ [Printed invalid_choice_msg]))
  | iter_eof_first choice out :
      is_operation choice = true ->
      iteration (World [choice] out) (Raise EOFError)
        (World [] (out ++ [Prompted choice_prompt; Prompted first_prompt]))
  | iter_first_invalid choice s1 rest out :
      is_operation choice = true ->
      float_of_str s1 = None ->
      iteration (World (choice :: s1 :: rest) out) (Return Continue)
        (World rest (out ++ [Prompted choice_prompt; Prompted first_prompt;
                             Printed invalid_input_msg]))
  | iter_eof_second choice s1 a out :
      is_operation choice = true ->
      float_of_str s1 = Some a ->
      iteration (World [choice; s1] out) (Raise EOFError)
        (World [] (out ++ [Prompted choice_prompt; Prompted first_prompt;
                           Prompted second_prompt]))
  | iter_second_invalid choice s1 s2 a rest out :
      is_operation choice = true ->
      float_of_str s1 = Some a ->
      float_of_str s2 = None ->
      iteration (World (choice :: s1 :: s2 :: rest) out) (Return Continue)
        (World rest (out ++ [Prompted choice_prompt; Prompted first_prompt;
                             Prompted second_prompt; Printed invalid_input_msg]))
  | iter_success choice s1 s2 a b rest out :
      is_operation choice = true ->
      float_of_str s1 = Some a ->
      float_of_str s2 = Some b ->
      iteration (World (choice :: s1 :: s2 :: rest) out) (Return Continue)
        (World rest (out ++ [Prompted choice_prompt; Prompted first_prompt;
                             Prompted second_prompt;
                             Printed (result_line (operator_symbol choice) a b
                                        (operation choice a b))])).

(** Worlds reached from [w] by iterations that all continue the loop. *)
Inductive continues : world -> world -> Prop :=
  | continues_refl w : continues w w
  | continues_step w w1 w2 :
      loop_body w = (Return Continue, w1) ->
      continues w1 w2 ->
      continues w w2.

(** A run of the program on the given lines ends with outcome [r] in
    world [w']. *)
Definition halts (lines : list string) (r : result unit) (w' : world) : Prop :=
  exists fuel, main fuel (initial lines) = Some (r, w').

(** The loop was left through the [break]: some iteration, reached through
    iterations that continued, read "q" at the choice prompt. *)
Definition quit_at_choice_prompt (lines : list string) (w' : world) : Prop :=
  exists w0 w1 rest,
    menu (initial lines) = (Return tt, w0) /\
    continues w0 w1 /\
    stdin w1 = "q" :: rest /\
    w' = World rest (stdout w1 ++ [Prompted choice_prompt]).

(** A string made of whitespace only. *)
Definition all_spaces (s : string) : Prop :=
  Forall (fun c => is_space c = true) (list_ascii_of_string s).

(** The lines the program can print: the menu, the two messages and the
    result lines; and the prompts it can write. *)
Definition fixed_lines : list string :=
  ["Simple Calculator"; "1. Add"; "2. Subtract"; "3. Multiply";
   invalid_input_msg; invalid_choice_msg].

Definition known_event (ev : out_event) : Prop :=
  match ev with
  | Printed l => In l fixed_lines \/ is_result_line l
  | Prompted p => In p [choice_prompt; first_prompt; second_prompt]
  end.

Definition is_choice_prompt (ev : out_event) : bool :=
  match ev with
  | Prompted p => p =? choice_prompt
  | Printed _ => false
  end.

(** How many times the choice prompt was written. *)
Definition choice_prompts (out : list out_event) : nat :=
  List.length (filter is_choice_prompt out).

(** The sign of a float, a NaN having none. *)
Definition sign_bit (x : PyFloat.float) : option bool :=
  match x with
  | S754_nan => None
  | S754_zero s | S754_infinity s | S754_finite s _ _ => Some s
  end.

Lemma is_operation_cases (choice : string) :
  is_operation choice = true <->
  choice = "1" \/ choice = "2" \/ choice = "3".
Proof.
  unfold is_operation; simpl.
  rewrite !orb_true_iff, !String.eqb_eq. intuition discriminate.
Qed.

Lemma loop_body_eof (out : list out_event) :
  loop_body (World [] out)
  = (Raise EOFError, World [] (out ++ [Prompted choice_prompt])).
Proof. reflexivity. Qed.

Lemma loop_body_quit (rest : list string) (out : list out_event) :
  loop_body (World ("q" :: rest) out)
  = (Return Break, World rest (out ++ [Prompted choice_prompt])).
Proof. reflexivity. Qed.

Lemma loop_body_invalid_choice (choice : string) (rest : list string)
    (out : list out_event) :
  (choice =? "q") = false ->
  is_operation choice = false ->
  loop_body (World (choice :: rest) out)
  = (Return Continue,
     World rest (out ++ [Prompted choice_prompt] ++ [Printed invalid_choice_msg])).
Proof.
  intros Hq Hop. unfold loop_body, bind, input, write, read_line; simpl.
  rewrite Hq, Hop. unfold print, write, bind, ret; simpl.
  now rewrite <- app_assoc.
Qed.

Ltac run_io :=
  unfold loop_body, operate, try_except_ValueError, add, subtract, multiply,
    print, input, bind, write, read_line, ret, raise, Py.float;
  cbn [stdin stdout String.eqb Ascii.eqb Bool.eqb is_operation existsb orb].

Ltac by_choice H :=
  apply is_operation_cases in H; destruct H as [-> | [-> | ->]].

Lemma loop_body_first_invalid (choice s1 : string) (rest : list string)
    (out : list out_event) :
  is_operation choice = true ->
  float_of_str s1 = None ->
  loop_body (World (choice :: s1 :: rest) out)
  = (Return Continue,
     World rest (out ++ [Prompted choice_prompt; Prompted first_prompt;
                         Printed invalid_input_msg])).
Proof.
  intros Hop H1. by_choice Hop; run_io; rewrite H1; run_io;
    now rewrite <- !app_assoc.
Qed.

Lemma loop_body_second_invalid (choice s1 s2 : string) (a : PyFloat.float)
    (rest : list string) (out : list out_event) :
  is_operation choice = true ->
  float_of_str s1 = Some a ->
  float_of_str s2 = None ->
  loop_body (World (choice :: s1 :: s2 :: rest) out)
  = (Return Continue,
     World rest (out ++ [Prompted choice_prompt; Prompted first_prompt;
                         Prompted second_prompt; Printed invalid_input_msg])).
Proof.
  intros Hop H1 H2. by_choice Hop; run_io; rewrite H1; run_io; rewrite H2;
    run_io; now rewrite <- !app_assoc.
Qed.

Lemma loop_body_success (choice s1 s2 : string) (a b : PyFloat.float)
    (rest : list string) (out : list out_event) :
  is_operation choice = true ->
  float_of_str s1 = Some a ->
  float_of_str s2 = Some b ->
  loop_body (World (choice :: s1 :: s2 :: rest) out)
  = (Return Continue,
     World rest (out ++ [Prompted choice_prompt; Prompted first_prompt;
                         Prompted second_prompt;
                         Printed (result_line (operator_symbol choice) a b
                                    (operation choice a b))])).
Proof.
  intros Hop H1 H2. by_choice Hop; run_io; rewrite H1; run_io; rewrite H2;
    run_io; now rewrite <- !app_assoc.
Qed.

Lemma loop_body_eof_first (choice : string) (out : list out_event) :
  is_operation choice = true ->
  loop_body (World [choice] out)
  = (Raise EOFError,
     World [] (out ++ [Prompted choice_prompt; Prompted first_prompt])).
Proof.
  intros Hop. by_choice Hop; run_io; now rewrite <- !app_assoc.
Qed.

Lemma loop_body_eof_second (choice s1 : string) (a : PyFloat.float)
    (out : list out_event) :
  is_operation choice = true ->
  float_of_str s1 = Some a ->
  loop_body (World [choice; s1] out)
  = (Raise EOFError,
     World [] (out ++ [Prompted choice_prompt; Prompted first_prompt;
                       Prompted second_prompt])).
Proof.
  intros Hop H1. by_choice Hop; run_io; rewrite H1; run_io;
    now rewrite <- !app_assoc.
Qed.

Lemma loop_body_iteration (w : world) :
  iteration w (fst (loop_body w)) (snd (loop_body w)).
Proof.
  destruct w as [[|choice rest] out].
  - rewrite loop_body_eof. constructor.
  - destruct (choice =? "q") eqn:Hq.
    + apply String.eqb_eq in Hq; subst. rewrite loop_body_quit. constructor.
    + destruct (is_operation choice) eqn:Hop.
      * destruct rest as [|s1 rest].
        { rewrite loop_body_eof_first by assumption. now constructor. }
        destruct (float_of_str s1) as [a|] eqn:H1.
        2:{ rewrite loop_body_first_invalid by assumption. now constructor. }
        destruct rest as [|s2 rest].
        { rewrite (loop_body_eof_second _ _ a) by assumption.
          now apply iter_eof_second with a. }
        destruct (float_of_str s2) as [b|] eqn:H2.
        { rewrite (loop_body_success _ _ _ a b) by assumption.
          now constructor. }
        rewrite (loop_body_second_invalid _ _ _ a) by assumption.
        now apply iter_second_invalid with a.
      * rewrite loop_body_invalid_choice by assumption. now constructor.
Qed.

Lemma loop_body_inv (w w' : world) (r : result ctl) :
  loop_body w = (r, w') -> iteration w r w'.
Proof.
  intros H. pose proof (loop_body_iteration w) as Hi.
  now rewrite H in Hi.
Qed.

Lemma loop_body_continue_shorter (w w' : world) :
  loop_body w = (Return Continue, w') ->
  (List.length (stdin w') < List.length (stdin w))%nat.
Proof.
  intros H. apply loop_body_inv in H. inversion H; subst; simpl; lia.
Qed.

Lemma while_true_mono (n m : nat) (w : world) (x : result unit * world) :
  (n <= m)%nat ->
  while_true n loop_body w = Some x ->
  while_true m loop_body w = Some x.
Proof.
  revert m w. induction n as [|n IH]; intros m w Hle H; [discriminate|].
  destruct m as [|m]; [lia|]. simpl in *.
  destruct (loop_body w) as [[[|]|e] w1]; try assumption.
  apply IH; [lia | assumption].
Qed.

Lemma while_true_total (n : nat) (w : world) :
  (List.length (stdin w) < n)%nat ->
  exists r w', while_true n loop_body w = Some (r, w').
Proof.
  revert w. induction n as [|n IH]; intros w Hlt; [lia|].
  simpl. destruct (loop_body w) as [[[|]|e] w1] eqn:Hb; eauto.
  apply IH. apply loop_body_continue_shorter in Hb. lia.
Qed.

Lemma has_char_app (c : ascii) (s t : string) :
  has_char c (s ++ t)%string = has_char c s || has_char c t.
Proof.
  induction s as [|d s IH]; simpl; [reflexivity|].
  now rewrite IH, orb_assoc.
Qed.

Lemma result_line_has_equals (l : string) :
  is_result_line l -> has_char "=" l = true.
Proof.
  intros (sym & a & b & r & _ & ->). unfold result_line.
  rewrite !has_char_app. simpl. now rewrite !orb_true_r.
Qed.

Lemma loop_body_prompts_first (w : world) :
  exists evs,
    stdout (snd (loop_body w)) = stdout w ++ Prompted choice_prompt :: evs.
Proof.
  pose proof (loop_body_iteration w) as H.
  inversion H; subst; simpl; eauto.
Qed.

Lemma menu_initial (lines : list string) :
  menu (initial lines)
  = (Return tt,
     World lines [Printed "Simple Calculator"; Printed "1. Add";
                  Printed "2. Subtract"; Printed "3. Multiply"]).
Proof. reflexivity. Qed.

Lemma main_total (lines : list string) :
  exists r w', main (S (List.length lines)) (initial lines) = Some (r, w').
Proof.
  unfold main. rewrite menu_initial. apply while_true_total. simpl. lia.
Qed.

Lemma halts_deterministic (lines : list string) (r1 r2 : result unit)
    (w1 w2 : world) :
  halts lines r1 w1 -> halts lines r2 w2 -> r1 = r2 /\ w1 = w2.
Proof.
  intros [n Hn] [m Hm]. unfold main in *. rewrite menu_initial in *.
  apply (while_true_mono n (Nat.max n m)) in Hn; [|lia].
  apply (while_true_mono m (Nat.max n m)) in Hm; [|lia].
  rewrite Hn in Hm. now inversion Hm.
Qed.

Lemma while_true_outcome (fuel : nat) (w w' : world) (r : result unit) :
  while_true fuel loop_body w = Some (r, w') ->
  (r = Return tt /\
   exists w1 rest, continues w w1 /\ stdin w1 = "q" :: rest /\
     w' = World rest (stdout w1 ++ [Prompted choice_prompt]))
  \/ (r = Raise EOFError /\ stdin w' = []).
Proof.
  revert w. induction fuel as [|fuel IH]; intros w H; [discriminate|].
  simpl in H. destruct (loop_body w) as [[[|]|e] w1] eqn:Hb.
  - inversion H; subst. apply loop_body_inv in Hb. inversion Hb; subst.
    left. split; [reflexivity|].
    eexists _, _. split; [apply continues_refl|]. split; reflexivity.
  - apply IH in H. destruct H as [(-> & w2 & rest & Hc & Hq & ->) | H].
    + left. split; [reflexivity|]. exists w2, rest.
      split; [|split; [assumption|reflexivity]].
      now apply continues_step with w1.
    + now right.
  - inversion H; subst. apply loop_body_inv in Hb.
    right. inversion Hb; subst; split; reflexivity.
Qed.

(** ** The loop: scenarios and per-iteration behaviour *)

(** C1. On the lines "1", "x", "4", "q" the program prints the
    invalid-input message, prints no line that is an arithmetic result, and
    returns from [main] normally. *)
Theorem invalid_operand_scenario :
  exists w',
    halts ["1"; "x"; "4"; "q"] (Return tt) w' /\
    In (Printed invalid_input_msg) (stdout w') /\
    (forall l, In (Printed l) (stdout w') -> ~ is_result_line l).
Proof.
  eexists. split; [exists 3%nat; reflexivity|].
  split; [simpl; tauto|].
  intros l Hin Hr. apply result_line_has_equals in Hr.
  simpl in Hin.
  repeat (destruct Hin as [Hin | Hin];
          [try discriminate Hin; injection Hin as <-; discriminate Hr|]).
  contradiction.
Qed.

(** C2, as stated, fails: with choice "1" and a first operand "x" that does
    not parse, the iteration takes two lines, not three. *)
Lemma two_lines_when_first_operand_fails :
  is_operation "1" = true /\
  float_of_str "x" = None /\
  loop_body (World ["1"; "x"; "4"; "q"] [])
  = (Return Continue,
     World ["4"; "q"]
       [Prompted choice_prompt; Prompted first_prompt;
        Printed invalid_input_msg]) /\
  lines_consumed (World ["1"; "x"; "4"; "q"] [])
    (snd (loop_body (World ["1"; "x"; "4"; "q"] []))) <> 3%nat.
Proof.
  repeat split; try reflexivity. vm_compute. discriminate.
Qed.

(** C2, amended. An iteration whose choice is "1", "2" or "3" takes three
    lines (the choice and two operands) when the first operand parses and
    a second operand line is there, whether or not the second parses; it
    takes two lines (the choice and the first operand) when the first
    operand does not parse, the second one being then never read; when
    standard input ends before an operand the iteration asks for, it ends
    with [EOFError] having taken the lines that were there: two when the
    first operand parsed and no line follows, one when no line follows the
    choice.  An iteration whose choice is any other string than "q" takes
    one line. *)
Theorem iteration_lines_consumed (choice : string) (rest : list string)
    (out : list out_event) :
  (In choice ["1"; "2"; "3"] ->
     (forall s1 s2 rest',
        rest = s1 :: s2 :: rest' -> float_of_str s1 <> None ->
        fst (loop_body (World (choice :: rest) out)) = Return Continue /\
        lines_consumed (World (choice :: rest) out)
          (snd (loop_body (World (choice :: rest) out))) = 3%nat) /\
     (forall s1 rest',
        rest = s1 :: rest' -> float_of_str s1 = None ->
        fst (loop_body (World (choice :: rest) out)) = Return Continue /\
        lines_consumed (World (choice :: rest) out)
          (snd (loop_body (World (choice :: rest) out))) = 2%nat) /\
     (forall s1,
        rest = [s1] -> float_of_str s1 <> None ->
        fst (loop_body (World (choice :: rest) out)) = Raise EOFError /\
        lines_consumed (World (choice :: rest) out)
          (snd (loop_body (World (choice :: rest) out))) = 2%nat) /\
     (rest = [] ->
        fst (loop_body (World (choice :: rest) out)) = Raise EOFError /\
        lines_consumed (World (choice :: rest) out)
          (snd (loop_body (World (choice :: rest) out))) = 1%nat)) /\
  (~ In choice ["1"; "2"; "3"] -> choice <> "q" ->
     fst (loop_body (World (choice :: rest) out)) = Return Continue /\
     lines_consumed (World (choice :: rest) out)
       (snd (loop_body (World (choice :: rest) out))) = 1%nat).
Proof.
  split.
  - intros Hin.
    assert (Hop : is_operation choice = true).
    { apply is_operation_cases. simpl in Hin. intuition. }
    split; [|split; [|split]].
    + intros s1 s2 rest' -> H1.
      destruct (float_of_str s1) as [a|] eqn:E1; [|congruence].
      destruct (float_of_str s2) as [b|] eqn:E2.
      * rewrite (loop_body_success _ _ _ a b) by assumption.
        split; [reflexivity|].
        unfold lines_consumed; cbn [stdin snd List.length]. lia.
      * rewrite (loop_body_second_invalid _ _ _ a) by assumption.
        split; [reflexivity|].
        unfold lines_consumed; cbn [stdin snd List.length]. lia.
    + intros s1 rest' -> H1.
      rewrite loop_body_first_invalid by assumption.
      split; [reflexivity|].
      unfold lines_consumed; cbn [stdin snd List.length]. lia.
    + intros s1 -> H1.
      destruct (float_of_str s1) as [a|] eqn:E1; [|congruence].
      rewrite (loop_body_eof_second _ _ a) by assumption.
      split; reflexivity.
    + intros ->. rewrite loop_body_eof_first by assumption.
      split; reflexivity.
  - intros Hnin Hq.
    rewrite loop_body_invalid_choice.
    + split; [reflexivity|].
      unfold lines_consumed; cbn [stdin snd List.length]. lia.
    + now apply String.eqb_neq.
    + destruct (is_operation choice) eqn:Hop; [|reflexivity].
      apply is_operation_cases in Hop. exfalso. apply Hnin. simpl. intuition.
Qed.

Lemma iteration_lines_consumed_witness :
  lines_consumed (World ["2"; "10"; "oops"; "q"] [])
    (snd (loop_body (World ["2"; "10"; "oops"; "q"] []))) = 3%nat /\
  lines_consumed (World ["3"; "oops"; "7"] [])
    (snd (loop_body (World ["3"; "oops"; "7"] []))) = 2%nat /\
  (fst (loop_body (World ["1"; "3"] [])) = Raise EOFError /\
   lines_consumed (World ["1"; "3"] [])
     (snd (loop_body (World ["1"; "3"] []))) = 2%nat) /\
  (fst (loop_body (World ["1"] [])) = Raise EOFError /\
   lines_consumed (World ["1"] [])
     (snd (loop_body (World ["1"] []))) = 1%nat) /\
  lines_consumed (World ["5"; "1"] [])
    (snd (loop_body (World ["5"; "1"] []))) = 1%nat.
Proof.
  split; [|split; [|split; [|split]]].
  - refine (proj2 (proj1 (proj1 (iteration_lines_consumed "2"
                                   ["10"; "oops"; "q"] []) _)
                     "10" "oops" ["q"] eq_refl _)).
    + simpl; tauto.
    + vm_compute; discriminate.
  - refine (proj2 (proj1 (proj2 (proj1 (iteration_lines_consumed "3"
                                          ["oops"; "7"] []) _))
                     "oops" ["7"] eq_refl _)).
    + simpl; tauto.
    + vm_compute; reflexivity.
  - refine (proj1 (proj2 (proj2 (proj1 (iteration_lines_consumed "1"
                                          ["3"] []) _)))
              "3" eq_refl _).
    + simpl; tauto.
    + vm_compute; discriminate.
  - refine (proj2 (proj2 (proj2 (proj1 (iteration_lines_consumed "1"
                                          [] []) _)))
              eq_refl).
    simpl; tauto.
  - refine (proj2 (proj2 (iteration_lines_consumed "5" ["1"] []) _ _)).
    + simpl. intros [H | [H | [H | []]]]; discriminate H.
    + discriminate.
Defined.

(** C4. In an iteration whose choice is "1", "2" or "3" and in which an
    operand line that was read does not parse, the program prints the
    invalid-input message, prints no result line, and the loop goes on: the
    iteration continues the loop and the next thing written is the choice
    prompt. *)
Theorem unparsable_operand_recovers (choice s1 : string)
    (rest : list string) (out : list out_event) :
  In choice ["1"; "2"; "3"] ->
  (float_of_str s1 = None \/
   exists a s2 rest',
     float_of_str s1 = Some a /\ rest = s2 :: rest' /\
     float_of_str s2 = None) ->
  exists w' evs,
    loop_body (World (choice :: s1 :: rest) out) = (Return Continue, w') /\
    stdout w' = out ++ evs /\
    In (Printed invalid_input_msg) evs /\
    (forall l, In (Printed l) evs -> ~ is_result_line l) /\
    (forall fuel,
       while_true (S fuel) loop_body (World (choice :: s1 :: rest) out)
       = while_true fuel loop_body w') /\
    (exists evs',
       stdout (snd (loop_body w'))
       = stdout w' ++ Prompted choice_prompt :: evs').
Proof.
  intros Hin Hbad.
  assert (Hop : is_operation choice = true).
  { apply is_operation_cases. simpl in Hin. intuition. }
  assert (Hno : forall evs,
             incl evs [Prompted choice_prompt; Prompted first_prompt;
                       Prompted second_prompt; Printed invalid_input_msg] ->
             forall l, In (Printed l) evs -> ~ is_result_line l).
  { intros evs Hsub l Hl Hr. apply Hsub in Hl.
    apply result_line_has_equals in Hr. simpl in Hl.
    repeat (destruct Hl as [Hl | Hl];
            [try discriminate Hl; injection Hl as <-; discriminate Hr|]).
    contradiction. }
  destruct Hbad as [H1 | (a & s2 & rest' & H1 & -> & H2)].
  - pose proof (loop_body_first_invalid choice s1 rest out Hop H1) as Hb.
    eexists _, _. split; [exact Hb|].
    split; [reflexivity|]. split; [simpl; tauto|].
    split; [apply Hno; intros e He; simpl in *; tauto|].
    split; [intros fuel; simpl; now rewrite Hb|].
    apply loop_body_prompts_first.
  - pose proof (loop_body_second_invalid choice s1 s2 a rest' out Hop H1 H2)
      as Hb.
    eexists _, _. split; [exact Hb|].
    split; [reflexivity|]. split; [simpl; tauto|].
    split; [apply Hno; intros e He; simpl in *; tauto|].
    split; [intros fuel; simpl; now rewrite Hb|].
    apply loop_body_prompts_first.
Qed.

Lemma unparsable_operand_recovers_witness :
  exists w' evs,
    loop_body (World ["2"; "7"; "abc"; "q"] []) = (Return Continue, w') /\
    stdout w' = [] ++ evs /\
    In (Printed invalid_input_msg) evs /\
    (forall l, In (Printed l) evs -> ~ is_result_line l) /\
    (forall fuel,
       while_true (S fuel) loop_body (World ["2"; "7"; "abc"; "q"] [])
       = while_true fuel loop_body w') /\
    (exists evs',
       stdout (snd (loop_body w'))
       = stdout w' ++ Prompted choice_prompt :: evs').
Proof.
  apply (unparsable_operand_recovers "2" "7" ["abc"; "q"] []).
  - simpl; tauto.
  - right. exists (S754_finite false 7881299347898368 (-50)), "abc", ["q"].
    repeat split; vm_compute; reflexivity.
Defined.

(** C5, as stated, fails: on an empty standard input the run ends, with
    [EOFError] raised by the first [input], although no "q" was ever read
    at the choice prompt. *)
Lemma run_ends_at_end_of_input :
  halts [] (Raise EOFError)
    (World [] [Printed "Simple Calculator"; Printed "1. Add";
               Printed "2. Subtract"; Printed "3. Multiply";
               Prompted choice_prompt]) /\
  (forall w', ~ quit_at_choice_prompt [] w').
Proof.
  split; [exists 1%nat; reflexivity|].
  intros w' (w0 & w1 & rest & Hm & Hc & Hq & _).
  rewrite menu_initial in Hm. injection Hm as <-.
  inversion Hc; subst.
  - discriminate Hq.
  - discriminate H.
Qed.

(** C5, amended. [main] returns normally only when "q" was read at the
    choice prompt, and a "q" read there ends the loop with nothing written
    after the prompt; the only other way a run ends is the [EOFError] that
    [input] raises once standard input is exhausted, and every run on
    finitely many lines ends in one of the two ways. *)
Theorem termination_paths :
  (forall rest out fuel,
     while_true (S fuel) loop_body (World ("q" :: rest) out)
     = Some (Return tt, World rest (out ++ [Prompted choice_prompt]))) /\
  (forall lines r w',
     halts lines r w' ->
     (r = Return tt /\ quit_at_choice_prompt lines w')
     \/ (r = Raise EOFError /\ stdin w' = [])) /\
  (forall lines, exists r w', halts lines r w').
Proof.
  split; [reflexivity|]. split.
  - intros lines r w' [fuel H]. unfold main in H.
    rewrite menu_initial in H. apply while_true_outcome in H.
    destruct H as [(-> & w1 & rest & Hc & Hq & ->) | H]; [left | now right].
    split; [reflexivity|]. eexists _, w1, rest.
    split; [apply menu_initial|]. now repeat split.
  - intros lines. destruct (main_total lines) as (r & w' & H).
    exists r, w', (S (List.length lines)). exact H.
Qed.

Lemma termination_paths_witness :
  (Return tt = Return tt /\
   quit_at_choice_prompt ["5"; "q"]
     (World [] [Printed "Simple Calculator"; Printed "1. Add";
                Printed "2. Subtract"; Printed "3. Multiply";
                Prompted choice_prompt; Printed invalid_choice_msg;
                Prompted choice_prompt]))
  \/ (Return tt = Raise EOFError /\
      stdin (World [] [Printed "Simple Calculator"; Printed "1. Add";
                Printed "2. Subtract"; Printed "3. Multiply";
                Prompted choice_prompt; Printed invalid_choice_msg;
                Prompted choice_prompt]) = []).
Proof.
  apply (proj1 (proj2 termination_paths) ["5"; "q"]).
  exists 2%nat. reflexivity.
Defined.

(** C6. In an iteration whose choice is neither "q" nor one of "1", "2",
    "3", the program writes the choice prompt and the invalid-choice
    message and nothing else (no operand prompt), reads no further line,
    and the loop continues. *)
Theorem invalid_choice_iteration (choice : string) (rest : list string)
    (out : list out_event) :
  choice <> "q" ->
  ~ In choice ["1"; "2"; "3"] ->
  loop_body (World (choice :: rest) out)
  = (Return Continue,
     World rest (out ++ [Prompted choice_prompt; Printed invalid_choice_msg]))
  /\ (forall fuel,
        while_true (S fuel) loop_body (World (choice :: rest) out)
        = while_true fuel loop_body
            (World rest
               (out ++ [Prompted choice_prompt; Printed invalid_choice_msg]))).
Proof.
  intros Hq Hnin.
  assert (Hb : loop_body (World (choice :: rest) out)
               = (Return Continue,
                  World rest (out ++ [Prompted choice_prompt;
                                      Printed invalid_choice_msg]))).
  { apply loop_body_invalid_choice.
    - now apply String.eqb_neq.
    - destruct (is_operation choice) eqn:Hop; [|reflexivity].
      apply is_operation_cases in Hop. exfalso. apply Hnin. simpl.
      intuition. }
  split; [exact Hb|]. intros fuel. simpl. now rewrite Hb.
Qed.

Lemma invalid_choice_iteration_witness :
  loop_body (World ["5"; "1"; "2"] [])
  = (Return Continue,
     World ["1"; "2"] [Prompted choice_prompt; Printed invalid_choice_msg])
  /\ (forall fuel,
        while_true (S fuel) loop_body (World ["5"; "1"; "2"] [])
        = while_true fuel loop_body
            (World ["1"; "2"]
               [Prompted choice_prompt; Printed invalid_choice_msg])).
Proof.
  apply (invalid_choice_iteration "5" ["1"; "2"] []).
  - discriminate.
  - simpl. intros [H | [H | [H | []]]]; discriminate H.
Defined.

(** C7. On the lines "1", "3", "4", "q" the program prints the line
    "3.0 + 4.0 = 7.0" and returns normally; and whenever both operands
    parse, the iteration prints the two operands and the result as
    "<num1> <symbol> <num2> = <result>", with "+" and the sum for choice
    "1", "-" and the difference for "2", "*" and the product for "3". *)
Theorem successful_operation_output :
  (exists w',
     halts ["1"; "3"; "4"; "q"] (Return tt) w' /\
     In (Printed "3.0 + 4.0 = 7.0") (stdout w')) /\
  (forall choice sym op s1 s2 a b rest out,
     In (choice, sym, op)
        [("1", "+", fadd); ("2", "-", fsub); ("3", "*", fmul)] ->
     float_of_str s1 = Some a ->
     float_of_str s2 = Some b ->
     loop_body (World (choice :: s1 :: s2 :: rest) out)
     = (Return Continue,
        World rest
          (out ++ [Prompted choice_prompt; Prompted first_prompt;
                   Prompted second_prompt;
                   Printed (format a ++ " " ++ sym ++ " " ++ format b
                              ++ " = " ++ format (op a b))%string]))).
Proof.
  split.
  - eexists. split; [exists 2%nat; reflexivity|]. simpl. tauto.
  - intros choice sym op s1 s2 a b rest out Hin H1 H2.
    simpl in Hin.
    destruct Hin as [E | [E | [E | []]]]; injection E as <- <- <-;
      now rewrite (loop_body_success _ s1 s2 a b).
Qed.

Lemma successful_operation_output_witness :
  loop_body (World ["2"; "10"; "4"; "q"] [])
  = (Return Continue,
     World ["q"]
       [Prompted choice_prompt; Prompted first_prompt;
        Prompted second_prompt; Printed "10.0 - 4.0 = 6.0"]).
Proof.
  refine (eq_trans
            (proj2 successful_operation_output "2" "-" fsub "10" "4"
               (S754_finite false 5629499534213120 (-49))
               (S754_finite false 4503599627370496 (-50)) ["q"] [] _ _ _) _).
  - simpl. tauto.
  - vm_compute. reflexivity.
  - vm_compute. reflexivity.
  - vm_compute. reflexivity.
Defined.

(** C9. A "q" given as an operand does not end the program: it does not
    parse as a number, so the iteration prints the invalid-input message
    and continues the loop, whether the "q" comes as the first operand or
    as the second. *)
Theorem quit_as_operand_continues (choice : string) (rest : list string)
    (out : list out_event) :
  In choice ["1"; "2"; "3"] ->
  float_of_str "q" = None /\
  loop_body (World (choice :: "q" :: rest) out)
  = (Return Continue,
     World rest (out ++ [Prompted choice_prompt; Prompted first_prompt;
                         Printed invalid_input_msg])) /\
  (forall s1 a,
     float_of_str s1 = Some a ->
     loop_body (World (choice :: s1 :: "q" :: rest) out)
     = (Return Continue,
        World rest (out ++ [Prompted choice_prompt; Prompted first_prompt;
                            Prompted second_prompt;
                            Printed invalid_input_msg]))).
Proof.
  intros Hin.
  assert (Hop : is_operation choice = true).
  { apply is_operation_cases. simpl in Hin. intuition. }
  assert (Hq : float_of_str "q" = None) by reflexivity.
  split; [exact Hq|]. split.
  - now apply loop_body_first_invalid.
  - intros s1 a H1. now apply loop_body_second_invalid with a.
Qed.

Lemma quit_as_operand_continues_witness :
  float_of_str "q" = None /\
  loop_body (World ["3"; "q"; "q"] [])
  = (Return Continue,
     World ["q"] ([] ++ [Prompted choice_prompt; Prompted first_prompt;
                         Printed invalid_input_msg])) /\
  (forall s1 a,
     float_of_str s1 = Some a ->
     loop_body (World ["3"; s1; "q"; "q"] [])
     = (Return Continue,
        World ["q"] ([] ++ [Prompted choice_prompt; Prompted first_prompt;
                            Prompted second_prompt;
                            Printed invalid_input_msg]))).
Proof.
  apply (quit_as_operand_continues "3" ["q"] []). simpl. tauto.
Defined.

(** ** The arithmetic functions *)

Section Rounding.

Variables prec emax : Z.

Lemma shr_1_nonneg (mrs : shr_record) :
  (0 <= shr_m mrs)%Z -> (0 <= shr_m (shr_1 mrs))%Z.
Proof.
  destruct mrs as [m r s]. simpl.
  destruct m as [|[p|p|]|p]; simpl; lia.
Qed.

Lemma iter_shr_1_nonneg (p : positive) (mrs : shr_record) :
  (0 <= shr_m mrs)%Z -> (0 <= shr_m (iter_pos shr_1 p mrs))%Z.
Proof.
  revert mrs. induction p as [p IH|p IH|]; intros mrs H; simpl.
  - apply IH, IH, shr_1_nonneg, H.
  - apply IH, IH, H.
  - apply shr_1_nonneg, H.
Qed.

Lemma shr_fexp_nonneg (m e : Z) (l : location) :
  (0 <= m)%Z -> (0 <= shr_m (fst (shr_fexp prec emax m e l)))%Z.
Proof.
  intros H. unfold shr_fexp, shr.
  assert (H0 : (0 <= shr_m (shr_record_of_loc m l))%Z).
  { destruct l as [|[| |]]; exact H. }
  destruct (fexp prec emax (Zdigits2 m + e) - e)%Z; simpl;
    auto using iter_shr_1_nonneg.
Qed.

Lemma round_nearest_even_nonneg (m : Z) (l : location) :
  (0 <= m)%Z -> (0 <= round_nearest_even m l)%Z.
Proof.
  intros H. destruct l as [|[| |]]; simpl; try lia.
  destruct (Z.even m); lia.
Qed.

Lemma binary_round_aux_not_nan (s : bool) (m e : Z) (l : location) :
  (0 <= m)%Z -> is_nan (binary_round_aux prec emax s m e l) = false.
Proof.
  intros H. unfold binary_round_aux.
  pose proof (shr_fexp_nonneg m e l H) as H1.
  destruct (shr_fexp prec emax m e l) as [mrs' e']. simpl in H1.
  pose proof (shr_fexp_nonneg _ e' loc_Exact
                (round_nearest_even_nonneg _ (loc_of_shr_record mrs') H1))
    as H2.
  destruct (shr_fexp prec emax _ e' loc_Exact) as [mrs'' e'']. simpl in H2.
  destruct (shr_m mrs'') as [|p|p]; [reflexivity| |lia].
  now destruct (e'' <=? emax - prec)%Z.
Qed.

Lemma binary_round_not_nan (s : bool) (m : positive) (e : Z) :
  is_nan (binary_round prec emax s m e) = false.
Proof.
  unfold binary_round.
  destruct (shl_align m e _) as [mz ez].
  apply binary_round_aux_not_nan. lia.
Qed.

Lemma binary_normalize_not_nan (m e : Z) (szero : bool) :
  is_nan (binary_normalize prec emax m e szero) = false.
Proof.
  destruct m; simpl; auto using binary_round_not_nan.
Qed.

End Rounding.

Lemma fadd_finite_not_nan (a b : PyFloat.float) :
  is_finite a = true -> is_finite b = true -> is_nan (fadd a b) = false.
Proof.
  destruct a as [sa|sa| |sa ma ea]; try discriminate;
    destruct b as [sb|sb| |sb mb eb]; try discriminate; intros _ _;
    unfold fadd, SFadd; try reflexivity.
  - now destruct sa, sb.
  - apply binary_normalize_not_nan.
Qed.

Lemma fsub_finite_not_nan (a b : PyFloat.float) :
  is_finite a = true -> is_finite b = true -> is_nan (fsub a b) = false.
Proof.
  destruct a as [sa|sa| |sa ma ea]; try discriminate;
    destruct b as [sb|sb| |sb mb eb]; try discriminate; intros _ _;
    unfold fsub, SFsub; try reflexivity.
  - now destruct sa, sb.
  - apply binary_normalize_not_nan.
Qed.

Lemma fmul_finite_not_nan (a b : PyFloat.float) :
  is_finite a = true -> is_finite b = true -> is_nan (fmul a b) = false.
Proof.
  destruct a as [sa|sa| |sa ma ea]; try discriminate;
    destruct b as [sb|sb| |sb mb eb]; try discriminate; intros _ _;
    unfold fmul, SFmul; try reflexivity.
  apply binary_round_aux_not_nan. lia.
Qed.

Lemma feq_refl (x : PyFloat.float) : is_nan x = false -> feq x x = true.
Proof.
  destruct x as [s|s| |s m e]; try discriminate; intros _;
    unfold feq, SFeqb, SFcompare.
  - reflexivity.
  - now destruct s.
  - rewrite Z.compare_refl.
    fold (Pos.compare m m). rewrite Pos.compare_refl. now destruct s.
Qed.

Lemma fadd_comm (a b : PyFloat.float) : fadd a b = fadd b a.
Proof.
  destruct a as [sa|sa| |sa ma ea], b as [sb|sb| |sb mb eb];
    unfold fadd, SFadd; try reflexivity;
    try (now destruct sa, sb).
  cbv zeta. now rewrite (Z.min_comm ea eb), Z.add_comm.
Qed.

Lemma fmul_comm (a b : PyFloat.float) : fmul a b = fmul b a.
Proof.
  destruct a as [sa|sa| |sa ma ea], b as [sb|sb| |sb mb eb];
    unfold fmul, SFmul; try reflexivity;
    try (now rewrite xorb_comm).
  now rewrite xorb_comm, Pos.mul_comm, Z.add_comm.
Qed.

(** C3. For all finite doubles [a] and [b], a call of [add], [subtract] or
    [multiply] returns normally, leaves the world as it was, and its result
    is the IEEE-754 binary64 sum, difference or product of [a] and [b]
    (the same value, and equal to it under the float comparison [==]). *)
Theorem arithmetic_functions_ieee (a b : PyFloat.float) (w : world) :
  is_finite a = true ->
  is_finite b = true ->
  (exists r, add a b w = (Return r, w) /\
             r = SFadd 53 1024 a b /\ feq r (SFadd 53 1024 a b) = true) /\
  (exists r, subtract a b w = (Return r, w) /\
             r = SFsub 53 1024 a b /\ feq r (SFsub 53 1024 a b) = true) /\
  (exists r, multiply a b w = (Return r, w) /\
             r = SFmul 53 1024 a b /\ feq r (SFmul 53 1024 a b) = true).
Proof.
  intros Ha Hb. repeat split.
  - exists (fadd a b). repeat split.
    apply feq_refl. now apply fadd_finite_not_nan.
  - exists (fsub a b). repeat split.
    apply feq_refl. now apply fsub_finite_not_nan.
  - exists (fmul a b). repeat split.
    apply feq_refl. now apply fmul_finite_not_nan.
Qed.

Lemma arithmetic_functions_ieee_witness :
  (exists r, add (S754_finite false 6755399441055744 (-51))
               (S754_finite false 4503599627370496 (-50)) (initial [])
             = (Return r, initial []) /\
             r = SFadd 53 1024 (S754_finite false 6755399441055744 (-51))
                   (S754_finite false 4503599627370496 (-50)) /\
             feq r (SFadd 53 1024 (S754_finite false 6755399441055744 (-51))
                      (S754_finite false 4503599627370496 (-50))) = true) /\
  (exists r, subtract (S754_finite false 6755399441055744 (-51))
               (S754_finite false 4503599627370496 (-50)) (initial [])
             = (Return r, initial []) /\
             r = SFsub 53 1024 (S754_finite false 6755399441055744 (-51))
                   (S754_finite false 4503599627370496 (-50)) /\
             feq r (SFsub 53 1024 (S754_finite false 6755399441055744 (-51))
                      (S754_finite false 4503599627370496 (-50))) = true) /\
  (exists r, multiply (S754_finite false 6755399441055744 (-51))
               (S754_finite false 4503599627370496 (-50)) (initial [])
             = (Return r, initial []) /\
             r = SFmul 53 1024 (S754_finite false 6755399441055744 (-51))
                   (S754_finite false 4503599627370496 (-50)) /\
             feq r (SFmul 53 1024 (S754_finite false 6755399441055744 (-51))
                      (S754_finite false 4503599627370496 (-50))) = true).
Proof.
  apply (arithmetic_functions_ieee
           (S754_finite false 6755399441055744 (-51))
           (S754_finite false 4503599627370496 (-50)) (initial []));
    reflexivity.
Defined.

(** C8. [add] and [multiply] are commutative on finite doubles: the two
    calls return the same value, equal under [==]; [subtract] is not:
    3.0 - 4.0 and 4.0 - 3.0 differ. *)
Theorem add_multiply_commute :
  (forall a b w,
     is_finite a = true -> is_finite b = true ->
     exists r1 r2,
       add a b w = (Return r1, w) /\ add b a w = (Return r2, w) /\
       r1 = r2 /\ feq r1 r2 = true) /\
  (forall a b w,
     is_finite a = true -> is_finite b = true ->
     exists r1 r2,
       multiply a b w = (Return r1, w) /\ multiply b a w = (Return r2, w) /\
       r1 = r2 /\ feq r1 r2 = true) /\
  (exists a b,
     is_finite a = true /\ is_finite b = true /\
     forall w, exists r1 r2,
       subtract a b w = (Return r1, w) /\ subtract b a w = (Return r2, w) /\
       r1 <> r2 /\ feq r1 r2 = false).
Proof.
  split; [|split].
  - intros a b w Ha Hb. exists (fadd a b), (fadd b a).
    repeat split; [apply fadd_comm|].
    rewrite (fadd_comm b a). apply feq_refl. now apply fadd_finite_not_nan.
  - intros a b w Ha Hb. exists (fmul a b), (fmul b a).
    repeat split; [apply fmul_comm|].
    rewrite (fmul_comm b a). apply feq_refl. now apply fmul_finite_not_nan.
  - exists (S754_finite false 6755399441055744 (-51)),
           (S754_finite false 4503599627370496 (-50)).
    repeat split. intros w. eexists _, _.
    split; [reflexivity|]. split; [reflexivity|].
    split; [vm_compute; discriminate | vm_compute; reflexivity].
Qed.

Lemma add_multiply_commute_witness :
  exists r1 r2,
    add (S754_finite false 6755399441055744 (-51))
      (S754_finite true 4503599627370496 (-50)) (initial [])
    = (Return r1, initial []) /\
    add (S754_finite true 4503599627370496 (-50))
      (S754_finite false 6755399441055744 (-51)) (initial [])
    = (Return r2, initial []) /\
    r1 = r2 /\ feq r1 r2 = true.
Proof.
  apply (proj1 add_multiply_commute
           (S754_finite false 6755399441055744 (-51))
           (S754_finite true 4503599627370496 (-50)) (initial []));
    reflexivity.
Defined.

(** ** Whitespace around an operand *)

Lemma list_ascii_of_string_app (s t : string) :
  list_ascii_of_string (s ++ t)%string
  = list_ascii_of_string s ++ list_ascii_of_string t.
Proof. induction s as [|c s IH]; simpl; [reflexivity | now rewrite IH]. Qed.

Lemma space_not_underscore (c : ascii) :
  is_space c = true -> is_underscore c = false.
Proof.
  unfold is_underscore. destruct (Ascii.eqb_spec c "_"); [subst|reflexivity].
  discriminate.
Qed.

Lemma space_not_digit (c : ascii) : is_space c = true -> is_digit c = false.
Proof.
  unfold is_space, is_digit.
  destruct (code c) as [|p]; [reflexivity|].
  intros H. do 8 (destruct p as [p|p|]; try discriminate H; try reflexivity).
Qed.

Lemma strip_underscores_prev (c c' : ascii) (l : list ascii) :
  is_underscore c = is_underscore c' ->
  is_digit c = is_digit c' ->
  strip_underscores c l = strip_underscores c' l.
Proof.
  intros Hu Hd. destruct l as [|d l]; simpl; now rewrite ?Hu, ?Hd.
Qed.

Lemma strip_underscores_spaces_before (p l : list ascii) (prev : ascii) :
  Forall (fun c => is_space c = true) p ->
  is_underscore prev = false ->
  is_digit prev = false ->
  strip_underscores prev (p ++ l)
  = option_map (app p) (strip_underscores prev l).
Proof.
  intros Hp. revert prev. induction Hp as [|c p Hc Hp IH]; intros prev Hu Hd.
  - simpl. now destruct (strip_underscores prev l).
  - simpl. rewrite (space_not_underscore c Hc), Hu. simpl.
    rewrite IH by auto using space_not_underscore, space_not_digit.
    rewrite (strip_underscores_prev c prev)
      by (rewrite ?Hu, ?Hd; auto using space_not_underscore, space_not_digit).
    now destruct (strip_underscores prev l).
Qed.

Lemma strip_underscores_spaces (q : list ascii) (prev : ascii) :
  Forall (fun c => is_space c = true) q ->
  is_underscore prev = false ->
  strip_underscores prev q = Some q.
Proof.
  intros Hq. revert prev. induction Hq as [|c q Hc Hq IH]; intros prev Hu.
  - simpl. now rewrite Hu.
  - simpl. rewrite (space_not_underscore c Hc), Hu. simpl.
    now rewrite IH by auto using space_not_underscore.
Qed.

Lemma strip_underscores_spaces_after (l l' q : list ascii) (prev : ascii) :
  Forall (fun c => is_space c = true) q ->
  strip_underscores prev l = Some l' ->
  strip_underscores prev (l ++ q) = Some (l' ++ q).
Proof.
  intros Hq. revert prev l'.
  induction l as [|c l IH]; intros prev l' H; simpl in *.
  - destruct (is_underscore prev) eqn:Hu; [discriminate|].
    injection H as <-. now apply strip_underscores_spaces.
  - destruct (is_underscore c).
    + destruct (is_digit prev); [now apply IH | discriminate].
    + destruct (is_underscore prev && negb (is_digit c)); [discriminate|].
      destruct (strip_underscores c l) as [t|] eqn:E; [|discriminate].
      injection H as <-. now rewrite (IH c t).
Qed.

Lemma skip_spaces_before (p l : list ascii) :
  Forall (fun c => is_space c = true) p ->
  skip_spaces (p ++ l) = skip_spaces l.
Proof.
  induction 1 as [|c p Hc Hp IH]; simpl; [reflexivity | now rewrite Hc].
Qed.

Lemma skip_spaces_after (l q : list ascii) :
  skip_spaces l <> [] -> skip_spaces (l ++ q) = skip_spaces l ++ q.
Proof.
  induction l as [|c l IH]; simpl; [congruence|].
  destruct (is_space c); auto.
Qed.

Lemma drop_trailing_spaces (q r : list ascii) :
  Forall (fun c => is_space c = true) q ->
  r <> [] ->
  drop_trailing (q ++ r) = drop_trailing r.
Proof.
  intros Hq Hr. induction Hq as [|c q Hc Hq IH]; [reflexivity|].
  simpl. rewrite Hc.
  destruct (q ++ r) as [|d t] eqn:E; [|exact IH].
  apply app_eq_nil in E. destruct E as [_ E]. contradiction.
Qed.

Lemma strip_trailing_spaces (s q : list ascii) :
  Forall (fun c => is_space c = true) q ->
  s <> [] ->
  strip_trailing (s ++ q) = strip_trailing s.
Proof.
  intros Hq Hs. unfold strip_trailing. rewrite rev_app_distr.
  rewrite drop_trailing_spaces; [reflexivity | now apply Forall_rev |].
  intros E. apply (f_equal (@rev ascii)) in E.
  rewrite rev_involutive in E. contradiction.
Qed.

Lemma float_from_string_inner_spaces (p l q : list ascii) (x : PyFloat.float) :
  Forall (fun c => is_space c = true) p ->
  Forall (fun c => is_space c = true) q ->
  float_from_string_inner l = Some x ->
  float_from_string_inner (p ++ l ++ q) = Some x.
Proof.
  intros Hp Hq H. unfold float_from_string_inner in *.
  rewrite skip_spaces_before by assumption.
  destruct (skip_spaces l) as [|c s] eqn:E; [discriminate|].
  rewrite skip_spaces_after by (rewrite E; discriminate).
  rewrite E. cbn [app].
  change (c :: s ++ q) with ((c :: s) ++ q).
  rewrite strip_trailing_spaces by (assumption || discriminate).
  exact H.
Qed.

Lemma float_of_str_spaces (ws1 ws2 s : string) (x : PyFloat.float) :
  all_spaces ws1 ->
  all_spaces ws2 ->
  float_of_str s = Some x ->
  float_of_str (ws1 ++ s ++ ws2)%string = Some x.
Proof.
  unfold all_spaces, float_of_str. intros H1 H2 H.
  rewrite !list_ascii_of_string_app.
  destruct (strip_underscores zero (list_ascii_of_string s)) as [l|] eqn:E;
    [|discriminate].
  rewrite strip_underscores_spaces_before by (assumption || reflexivity).
  rewrite (strip_underscores_spaces_after _ l) by assumption.
  simpl. now apply float_from_string_inner_spaces.
Qed.

(** C10. The operand strings "inf" and "nan" parse as doubles (infinity
    and a NaN), and a string that parses still parses, to the same double,
    with whitespace put before and after it; so on the lines "1", "inf",
    "1", "q" the program prints the result line "inf + 1.0 = inf", does
    not print the invalid-input message, and returns normally. *)
Theorem special_operands_parse :
  float_of_str "inf" = Some (S754_infinity false) /\
  float_of_str "nan" = Some S754_nan /\
  (forall ws1 ws2 s x,
     all_spaces ws1 -> all_spaces ws2 ->
     float_of_str s = Some x ->
     float_of_str (ws1 ++ s ++ ws2)%string = Some x) /\
  (exists w',
     halts ["1"; "inf"; "1"; "q"] (Return tt) w' /\
     In (Printed "inf + 1.0 = inf") (stdout w') /\
     ~ In (Printed invalid_input_msg) (stdout w')).
Proof.
  split; [reflexivity|]. split; [reflexivity|].
  split; [exact float_of_str_spaces|].
  eexists. split; [exists 2%nat; reflexivity|].
  split; [simpl; tauto|].
  simpl. intros H.
  repeat (destruct H as [H | H]; [discriminate H|]). contradiction.
Qed.

Lemma special_operands_parse_witness :
  float_of_str (" " ++ "3.5" ++ String "009" " ")%string
  = Some (S754_finite false 7881299347898368 (-51)).
Proof.
  apply (proj1 (proj2 (proj2 special_operands_parse))).
  - repeat constructor.
  - repeat constructor.
  - vm_compute. reflexivity.
Defined.

(** ** Further properties of the loop *)

Lemma operator_symbol_known (choice : string) :
  In (operator_symbol choice) ["+"; "-"; "*"].
Proof.
  unfold operator_symbol.
  destruct (choice =? "1"); [simpl; tauto|].
  destruct (choice =? "2"); simpl; tauto.
Qed.

Lemma known_prompt (p : string) :
  In p [choice_prompt; first_prompt; second_prompt] ->
  known_event (Prompted p).
Proof. intros H. exact H. Qed.

Lemma known_fixed_line (l : string) :
  In l fixed_lines -> known_event (Printed l).
Proof. intros H. left. exact H. Qed.

Lemma known_result_line (choice : string) (a b : PyFloat.float) :
  known_event
    (Printed (result_line (operator_symbol choice) a b (operation choice a b))).
Proof.
  right. exists (operator_symbol choice), a, b, (operation choice a b).
  split; [apply operator_symbol_known | reflexivity].
Qed.

Ltac known_events :=
  repeat first
    [ apply Forall_nil
    | apply Forall_cons
    | apply known_result_line
    | apply known_prompt; cbn [In]; tauto
    | apply known_fixed_line; cbv [fixed_lines]; cbn [In]; tauto ].

(** What an iteration returns, reads and writes is the same whatever was
    written before it, and it only appends to the output. *)
Lemma loop_body_frame (l l' : list string) (out out' : list out_event)
    (r : result ctl) :
  loop_body (World l out) = (r, World l' out') ->
  exists evs,
    out' = out ++ evs /\
    Forall known_event evs /\
    choice_prompts evs = 1%nat /\
    (r <> Return Continue ->
     exists evs0 p, evs = evs0 ++ [Prompted p] /\
       In p [choice_prompt; first_prompt; second_prompt] /\
       (r = Return Break -> p = choice_prompt)) /\
    forall out0, loop_body (World l out0) = (r, World l' (out0 ++ evs)).
Proof.
  intros H. apply loop_body_inv in H.
  inversion H; subst; eexists; (split; [reflexivity|]);
    (split; [known_events|]);
    (split; [reflexivity|]).
  - split; [|intros; apply loop_body_eof].
    intros _. exists [], choice_prompt. cbn [In app]. auto.
  - split; [|intros; apply loop_body_quit].
    intros _. exists [], choice_prompt. cbn [In app]. auto.
  - split; [congruence|]. intros. now apply loop_body_invalid_choice.
  - split; [|intros; now apply loop_body_eof_first].
    intros _. exists [Prompted choice_prompt], first_prompt.
    cbn [In app]. split; [reflexivity|]. split; [tauto | discriminate].
  - split; [congruence|]. intros. now apply loop_body_first_invalid.
  - split; [|intros; now apply loop_body_eof_second with a].
    intros _. exists [Prompted choice_prompt; Prompted first_prompt],
                second_prompt.
    cbn [In app]. split; [reflexivity|]. split; [tauto | discriminate].
  - split; [congruence|]. intros. now apply loop_body_second_invalid with a.
  - split; [congruence|]. intros. now apply loop_body_success.
Qed.

Lemma loop_body_stdin_le (l l' : list string) (out out' : list out_event)
    (r : result ctl) :
  loop_body (World l out) = (r, World l' out') ->
  (List.length l' <= List.length l)%nat.
Proof.
  intros H. apply loop_body_inv in H. inversion H; subst; simpl; lia.
Qed.

Lemma choice_prompts_app (out1 out2 : list out_event) :
  choice_prompts (out1 ++ out2)
  = (choice_prompts out1 + choice_prompts out2)%nat.
Proof. unfold choice_prompts. now rewrite filter_app, length_app. Qed.

(** The trace of the loop from a given standard input: what it appends to
    the output, and that this does not depend on the output so far. *)
Lemma while_true_trace (fuel : nat) (l l' : list string)
    (out out' : list out_event) (r : result unit) :
  while_true fuel loop_body (World l out) = Some (r, World l' out') ->
  exists evs,
    out' = out ++ evs /\
    Forall known_event evs /\
    (exists evs1, evs = Prompted choice_prompt :: evs1) /\
    (exists evs0 p, evs = evs0 ++ [Prompted p] /\
       In p [choice_prompt; first_prompt; second_prompt] /\
       (r = Return tt -> p = choice_prompt)) /\
    (choice_prompts evs + List.length l' <= S (List.length l))%nat /\
    forall out0,
      while_true fuel loop_body (World l out0)
      = Some (r, World l' (out0 ++ evs)).
Proof.
  revert l out. induction fuel as [|fuel IH]; intros l out H; [discriminate|].
  simpl in H.
  destruct (loop_body (World l out)) as [rc [l1 out1]] eqn:Hb.
  pose proof (loop_body_stdin_le _ _ _ _ _ Hb) as Hle.
  pose proof (loop_body_prompts_first (World l out)) as [evs' Hfirst].
  rewrite Hb in Hfirst. simpl in Hfirst.
  pose proof (loop_body_continue_shorter (World l out) (World l1 out1)) as Hlt.
  destruct (loop_body_frame _ _ _ _ _ Hb)
    as (evs & -> & Hknown & Hcount & Hlast & Hframe).
  apply app_inv_head in Hfirst.
  assert (Hend : forall rc0 : result unit,
             rc <> Return Continue ->
             (rc0 = Return tt -> rc = Return Break) ->
             exists evs0 p, evs = evs0 ++ [Prompted p] /\
               In p [choice_prompt; first_prompt; second_prompt] /\
               (rc0 = Return tt -> p = choice_prompt)).
  { intros rc0 Hnc Hrc. destruct (Hlast Hnc) as (evs0 & p & E & Hp & Hq).
    exists evs0, p. auto. }
  destruct rc as [[|]|e].
  - injection H as <- <- <-. exists evs.
    split; [reflexivity|]. split; [assumption|].
    split; [eauto|]. split; [apply Hend; [discriminate | reflexivity]|].
    split; [lia|]. intros out0. simpl. now rewrite Hframe.
  - destruct (IH _ _ H) as (evs2 & -> & Hk2 & _ & Hl2 & Hc2 & Hf2).
    exists (evs ++ evs2). split; [now rewrite app_assoc|].
    split; [apply Forall_app; auto|].
    split; [rewrite Hfirst; simpl; eauto|].
    split.
    { destruct Hl2 as (evs0 & p & -> & Hp & Hq).
      exists (evs ++ evs0), p. rewrite app_assoc. auto. }
    split.
    { rewrite choice_prompts_app. simpl in Hlt.
      specialize (Hlt Hb). lia. }
    intros out0. simpl. rewrite Hframe, Hf2. now rewrite app_assoc.
  - injection H as <- <- <-. exists evs.
    split; [reflexivity|]. split; [assumption|].
    split; [eauto|]. split; [apply Hend; discriminate|].
    split; [lia|]. intros out0. simpl. now rewrite Hframe.
Qed.

(** What an iteration that returns has read, and that the lines after
    those are not looked at. *)
Lemma loop_body_tail (l l' : list string) (out out' : list out_event)
    (c : ctl) :
  loop_body (World l out) = (Return c, World l' out') ->
  exists used,
    l = used ++ l' /\
    (c = Break -> used = ["q"]) /\
    forall tail,
      loop_body (World (used ++ tail) out) = (Return c, World tail out').
Proof.
  intros H. apply loop_body_inv in H. inversion H; subst.
  - exists ["q"]. split; [reflexivity|]. split; [reflexivity|].
    intros. apply loop_body_quit.
  - exists [choice]. split; [reflexivity|]. split; [discriminate|].
    intros. now apply loop_body_invalid_choice.
  - exists [choice; s1]. split; [reflexivity|]. split; [discriminate|].
    intros. now apply loop_body_first_invalid.
  - exists [choice; s1; s2]. split; [reflexivity|]. split; [discriminate|].
    intros. now apply loop_body_second_invalid with a.
  - exists [choice; s1; s2]. split; [reflexivity|]. split; [discriminate|].
    intros. now apply loop_body_success.
Qed.

Lemma while_true_tail (fuel : nat) (l l' : list string)
    (out out' : list out_event) :
  while_true fuel loop_body (World l out) = Some (Return tt, World l' out') ->
  exists pre,
    l = pre ++ "q" :: l' /\
    forall tail,
      while_true fuel loop_body (World (pre ++ "q" :: tail) out)
      = Some (Return tt, World tail out').
Proof.
  revert l out. induction fuel as [|fuel IH]; intros l out H; [discriminate|].
  simpl in H.
  destruct (loop_body (World l out)) as [[[|]|e] [l1 out1]] eqn:Hb;
    [| |discriminate].
  - injection H as <- <-.
    destruct (loop_body_tail _ _ _ _ _ Hb) as (used & -> & Hq & Htail).
    rewrite (Hq eq_refl) in *. exists []. split; [reflexivity|].
    intros tail. specialize (Htail tail). cbn [app] in Htail.
    cbn [while_true app]. now rewrite Htail.
  - destruct (loop_body_tail _ _ _ _ _ Hb) as (used & -> & _ & Htail).
    destruct (IH _ _ H) as (pre & -> & Hrest).
    exists (used ++ pre). split; [now rewrite app_assoc|].
    intros tail. cbn [while_true]. rewrite <- app_assoc, Htail. apply Hrest.
Qed.

Lemma skip_spaces_all (l : list ascii) :
  Forall (fun c => is_space c = true) l -> skip_spaces l = [].
Proof. induction 1 as [|c l Hc Hl IH]; simpl; [reflexivity | now rewrite Hc]. Qed.

Lemma float_of_str_blank (ws : string) :
  all_spaces ws -> float_of_str ws = None.
Proof.
  unfold all_spaces, float_of_str. intros H.
  rewrite strip_underscores_spaces by (assumption || reflexivity).
  unfold float_from_string_inner. now rewrite skip_spaces_all.
Qed.

Lemma halts_trace (lines : list string) (r : result unit) (w' : world) :
  halts lines r w' ->
  exists fuel evs,
    while_true fuel loop_body
      (World lines [Printed "Simple Calculator"; Printed "1. Add";
                    Printed "2. Subtract"; Printed "3. Multiply"])
    = Some (r, w') /\
    stdout w'
    = [Printed "Simple Calculator"; Printed "1. Add";
       Printed "2. Subtract"; Printed "3. Multiply"] ++ evs /\
    Forall known_event evs /\
    (exists evs1, evs = Prompted choice_prompt :: evs1) /\
    (exists evs0 p, evs = evs0 ++ [Prompted p] /\
       In p [choice_prompt; first_prompt; second_prompt] /\
       (r = Return tt -> p = choice_prompt)) /\
    (choice_prompts evs + List.length (stdin w') <= S (List.length lines))%nat.
Proof.
  intros [fuel H]. unfold main in H. rewrite menu_initial in H.
  destruct w' as [l' out'].
  destruct (while_true_trace _ _ _ _ _ _ H)
    as (evs & -> & Hk & Hfirst & Hlast & Hcount & _).
  exists fuel, evs. auto 10.
Qed.

(** X1. Whatever the input, every line a run prints is one of the four
    menu lines, one of the two error messages or a result line, and every
    prompt it writes is one of the three prompts. *)
Theorem output_vocabulary (lines : list string) (r : result unit)
    (w' : world) :
  halts lines r w' -> Forall known_event (stdout w').
Proof.
  intros H. destruct (halts_trace _ _ _ H) as (_ & evs & _ & -> & Hk & _).
  apply Forall_app. split; [known_events | exact Hk].
Qed.

Lemma output_vocabulary_witness :
  Forall known_event
    [Printed "Simple Calculator"; Printed "1. Add"; Printed "2. Subtract";
     Printed "3. Multiply"; Prompted choice_prompt; Prompted first_prompt;
     Prompted second_prompt; Printed "2.0 * 5.0 = 10.0";
     Prompted choice_prompt].
Proof.
  apply (output_vocabulary ["3"; "2"; "5"; "q"] (Return tt)
           (World [] [Printed "Simple Calculator"; Printed "1. Add";
                      Printed "2. Subtract"; Printed "3. Multiply";
                      Prompted choice_prompt; Prompted first_prompt;
                      Prompted second_prompt; Printed "2.0 * 5.0 = 10.0";
                      Prompted choice_prompt])).
  exists 2%nat. reflexivity.
Defined.

(** X2. Whatever the input and however the run ends, the output starts
    with the four menu lines followed by the choice prompt. *)
Theorem menu_comes_first (lines : list string) (r : result unit)
    (w' : world) :
  halts lines r w' ->
  exists evs,
    stdout w'
    = [Printed "Simple Calculator"; Printed "1. Add"; Printed "2. Subtract";
       Printed "3. Multiply"; Prompted choice_prompt] ++ evs.
Proof.
  intros H.
  destruct (halts_trace _ _ _ H) as (_ & evs & _ & -> & _ & [evs1 ->] & _).
  now exists evs1.
Qed.

Lemma menu_comes_first_witness :
  exists evs,
    stdout (World [] [Printed "Simple Calculator"; Printed "1. Add";
                      Printed "2. Subtract"; Printed "3. Multiply";
                      Prompted choice_prompt; Prompted first_prompt])
    = [Printed "Simple Calculator"; Printed "1. Add"; Printed "2. Subtract";
       Printed "3. Multiply"; Prompted choice_prompt] ++ evs.
Proof.
  apply (menu_comes_first ["2"] (Raise EOFError)).
  exists 1%nat. reflexivity.
Defined.

(** X3. The last thing a run writes is a prompt: the choice prompt when
    [main] returns, and the prompt that found standard input exhausted
    when the run ends with [EOFError]; a run never ends just after a
    printed line. *)
Theorem run_ends_on_a_prompt (lines : list string) (r : result unit)
    (w' : world) :
  halts lines r w' ->
  exists out p,
    stdout w' = out ++ [Prompted p] /\
    In p [choice_prompt; first_prompt; second_prompt] /\
    (r = Return tt -> p = choice_prompt).
Proof.
  intros H.
  destruct (halts_trace _ _ _ H)
    as (_ & evs & _ & -> & _ & _ & (evs0 & p & -> & Hp & Hq) & _).
  eexists (_ ++ evs0), p. rewrite app_assoc. auto.
Qed.

Lemma run_ends_on_a_prompt_witness :
  exists out p,
    stdout (World [] [Printed "Simple Calculator"; Printed "1. Add";
                      Printed "2. Subtract"; Printed "3. Multiply";
                      Prompted choice_prompt; Prompted first_prompt;
                      Prompted second_prompt])
    = out ++ [Prompted p] /\
    In p [choice_prompt; first_prompt; second_prompt] /\
    (Raise EOFError = Return tt -> p = choice_prompt).
Proof.
  apply (run_ends_on_a_prompt ["1"; "2.5"] (Raise EOFError)).
  exists 1%nat. reflexivity.
Defined.

(** X4. When [main] returns, the lines were read in order up to the "q"
    that ended the loop, the lines after it are left unread, and they do
    not matter: with any other lines after that "q" the run returns with
    the same output. *)
Theorem lines_after_quit_unread (lines : list string) (w' : world) :
  halts lines (Return tt) w' ->
  exists pre,
    lines = pre ++ "q" :: stdin w' /\
    forall tail,
      halts (pre ++ "q" :: tail) (Return tt) (World tail (stdout w')).
Proof.
  intros [fuel H]. unfold main in H. rewrite menu_initial in H.
  destruct w' as [l' out'].
  destruct (while_true_tail _ _ _ _ _ H) as (pre & -> & Htail).
  exists pre. split; [reflexivity|].
  intros tail. exists fuel. unfold main. rewrite menu_initial. apply Htail.
Qed.

Lemma lines_after_quit_unread_witness :
  exists pre,
    ["5"; "q"; "1"; "2"] = pre ++ "q" :: ["1"; "2"] /\
    forall tail,
      halts (pre ++ "q" :: tail) (Return tt)
        (World tail
           [Printed "Simple Calculator"; Printed "1. Add";
            Printed "2. Subtract"; Printed "3. Multiply";
            Prompted choice_prompt; Printed invalid_choice_msg;
            Prompted choice_prompt]).
Proof.
  apply (lines_after_quit_unread ["5"; "q"; "1"; "2"]
           (World ["1"; "2"]
              [Printed "Simple Calculator"; Printed "1. Add";
               Printed "2. Subtract"; Printed "3. Multiply";
               Prompted choice_prompt; Printed invalid_choice_msg;
               Prompted choice_prompt])).
  exists 2%nat. reflexivity.
Defined.

(** X5. The loop keeps no state between iterations but the two streams:
    from the same remaining input it returns the same outcome, leaves the
    same lines and appends the same events whatever was written before,
    and it never alters what was written before. *)
Theorem loop_history_independent (fuel : nat) (l l' : list string)
    (out out' : list out_event) (r : result unit) :
  while_true fuel loop_body (World l out) = Some (r, World l' out') ->
  exists evs,
    out' = out ++ evs /\
    forall out0,
      while_true fuel loop_body (World l out0)
      = Some (r, World l' (out0 ++ evs)).
Proof.
  intros H.
  destruct (while_true_trace _ _ _ _ _ _ H) as (evs & -> & _ & _ & _ & _ & Hf).
  now exists evs.
Qed.

Lemma loop_history_independent_witness :
  exists evs,
    [Printed "earlier"; Prompted choice_prompt; Printed invalid_choice_msg;
     Prompted choice_prompt]
    = [Printed "earlier"] ++ evs /\
    forall out0,
      while_true 2 loop_body (World ["x"; "q"; "3"] out0)
      = Some (Return tt, World ["3"] (out0 ++ evs)).
Proof.
  apply (loop_history_independent 2 ["x"; "q"; "3"] ["3"]
           [Printed "earlier"]).
  reflexivity.
Defined.

(** X6. A blank operand line, empty or made of whitespace only, is not a
    number: with choice "1", "2" or "3" the iteration prints the
    invalid-input message after the first prompt and continues, without
    asking for the second operand. *)
Theorem blank_operand_rejected (choice ws : string) (rest : list string)
    (out : list out_event) :
  In choice ["1"; "2"; "3"] ->
  all_spaces ws ->
  float_of_str ws = None /\
  loop_body (World (choice :: ws :: rest) out)
  = (Return Continue,
     World rest (out ++ [Prompted choice_prompt; Prompted first_prompt;
                         Printed invalid_input_msg])).
Proof.
  intros Hin Hws.
  assert (Hop : is_operation choice = true).
  { apply is_operation_cases. simpl in Hin. intuition. }
  pose proof (float_of_str_blank ws Hws) as Hnone.
  split; [exact Hnone|]. now apply loop_body_first_invalid.
Qed.

Lemma blank_operand_rejected_witness :
  float_of_str "" = None /\
  loop_body (World ["2"; ""; "7"] [])
  = (Return Continue,
     World ["7"] ([] ++ [Prompted choice_prompt; Prompted first_prompt;
                         Printed invalid_input_msg])).
Proof.
  apply (blank_operand_rejected "2" "" ["7"] []).
  - simpl. tauto.
  - constructor.
Defined.

(** X7. A run on [n] lines writes the choice prompt at most [n + 1] times:
    every iteration but the last takes at least one line, so the loop goes
    round at most once more than there are lines. *)
Theorem choice_prompts_bounded (lines : list string) (r : result unit)
    (w' : world) :
  halts lines r w' ->
  (choice_prompts (stdout w') + List.length (stdin w')
   <= S (List.length lines))%nat.
Proof.
  intros H.
  destruct (halts_trace _ _ _ H) as (_ & evs & _ & -> & _ & _ & _ & Hc).
  rewrite choice_prompts_app. exact Hc.
Qed.

Lemma choice_prompts_bounded_witness :
  (choice_prompts
     (stdout (World [] [Printed "Simple Calculator"; Printed "1. Add";
                        Printed "2. Subtract"; Printed "3. Multiply";
                        Prompted choice_prompt; Printed invalid_choice_msg;
                        Prompted choice_prompt; Printed invalid_choice_msg;
                        Prompted choice_prompt]))
   + List.length
       (stdin (World [] [Printed "Simple Calculator"; Printed "1. Add";
                        Printed "2. Subtract"; Printed "3. Multiply";
                        Prompted choice_prompt; Printed invalid_choice_msg;
                        Prompted choice_prompt; Printed invalid_choice_msg;
                        Prompted choice_prompt]))
   <= S (List.length ["a"; "b"]))%nat.
Proof.
  apply (choice_prompts_bounded ["a"; "b"] (Raise EOFError)).
  exists 3%nat. reflexivity.
Defined.

(** ** Further properties of the arithmetic functions *)

Section RoundingSign.

Variables prec emax : Z.

Lemma SFopp_binary_round_aux (s : bool) (m e : Z) (l : location) :
  SFopp (binary_round_aux prec emax s m e l)
  = binary_round_aux prec emax (negb s) m e l.
Proof.
  unfold binary_round_aux.
  destruct (shr_fexp prec emax m e l) as [mrs' e'].
  destruct (shr_fexp prec emax _ e' loc_Exact) as [mrs'' e''].
  destruct (shr_m mrs'') as [|p|p]; try reflexivity.
  now destruct (e'' <=? emax - prec)%Z.
Qed.

Lemma SFopp_binary_round (s : bool) (m : positive) (e : Z) :
  SFopp (binary_round prec emax s m e) = binary_round prec emax (negb s) m e.
Proof.
  unfold binary_round. destruct (shl_align m e _) as [mz ez].
  apply SFopp_binary_round_aux.
Qed.

Lemma binary_round_aux_sign (s : bool) (m e : Z) (l : location) :
  (0 <= m)%Z -> sign_bit (binary_round_aux prec emax s m e l) = Some s.
Proof.
  intros H. unfold binary_round_aux.
  pose proof (shr_fexp_nonneg prec emax m e l H) as H1.
  destruct (shr_fexp prec emax m e l) as [mrs' e']. simpl in H1.
  pose proof (shr_fexp_nonneg prec emax _ e' loc_Exact
                (round_nearest_even_nonneg _ (loc_of_shr_record mrs') H1))
    as H2.
  destruct (shr_fexp prec emax _ e' loc_Exact) as [mrs'' e'']. simpl in H2.
  destruct (shr_m mrs'') as [|p|p]; [reflexivity| |lia].
  now destruct (e'' <=? emax - prec)%Z.
Qed.

Lemma shl_align_same (m : positive) (e : Z) : shl_align m e e = (m, e).
Proof. unfold shl_align. now rewrite Z.sub_diag. Qed.

End RoundingSign.


Lemma binary_normalize_opp (m e : Z) :
  feq (binary_normalize prec emax m e false)
    (SFopp (binary_normalize prec emax (- m) e false)) = true.
Proof.
  destruct m as [|p|p]; simpl; [reflexivity| |].
  - rewrite SFopp_binary_round. apply feq_refl, binary_round_not_nan.
  - rewrite SFopp_binary_round. apply feq_refl, binary_round_not_nan.
Qed.

Lemma fsub_anticomm (a b : PyFloat.float) :
  is_finite a = true -> is_finite b = true ->
  feq (fsub a b) (SFopp (fsub b a)) = true.
Proof.
  destruct a as [sa|sa| |sa ma ea]; try discriminate;
    destruct b as [sb|sb| |sb mb eb]; try discriminate; intros _ _.
  - now destruct sa, sb.
  - unfold fsub, SFsub, SFopp. apply feq_refl. reflexivity.
  - unfold fsub, SFsub, SFopp. rewrite negb_involutive.
    apply feq_refl. reflexivity.
  - unfold fsub, SFsub. cbv zeta. rewrite (Z.min_comm eb ea).
    match goal with
    | |- feq (binary_normalize _ _ ?x _ _)
           (SFopp (binary_normalize _ _ ?y _ _)) = true =>
        replace y with (- x)%Z by lia
    end.
    apply binary_normalize_opp.
Qed.

Lemma fsub_diag (a : PyFloat.float) :
  is_finite a = true -> fsub a a = S754_zero false.
Proof.
  destruct a as [s|s| |s m e]; try discriminate; intros _.
  - now destruct s.
  - unfold fsub, SFsub. cbv zeta.
    rewrite Z.min_id, shl_align_same, Z.sub_diag. reflexivity.
Qed.

Lemma fmul_sign (a b : PyFloat.float) (sa sb : bool) :
  is_finite a = true -> is_finite b = true ->
  sign_bit a = Some sa -> sign_bit b = Some sb ->
  sign_bit (fmul a b) = Some (xorb sa sb).
Proof.
  destruct a as [s1|s1| |s1 ma ea]; try discriminate;
    destruct b as [s2|s2| |s2 mb eb]; try discriminate; intros _ _ Ha Hb;
    injection Ha as <-; injection Hb as <-; unfold fmul, SFmul;
    try reflexivity.
  apply binary_round_aux_sign. lia.
Qed.


(** X9. Swapping the arguments of [subtract] negates the result: for
    finite doubles, [subtract(a, b) == -subtract(b, a)]. *)
Theorem subtract_swap_negates (a b : PyFloat.float) (w : world) :
  is_finite a = true ->
  is_finite b = true ->
  exists r1 r2,
    subtract a b w = (Return r1, w) /\
    subtract b a w = (Return r2, w) /\
    feq r1 (SFopp r2) = true.
Proof.
  intros Ha Hb. exists (fsub a b), (fsub b a).
  split; [reflexivity|]. split; [reflexivity|]. now apply fsub_anticomm.
Qed.

Lemma subtract_swap_negates_witness :
  exists r1 r2,
    subtract (S754_finite false 6755399441055744 (-51))
      (S754_finite false 7205759403792794 (-56)) (initial [])
    = (Return r1, initial []) /\
    subtract (S754_finite false 7205759403792794 (-56))
      (S754_finite false 6755399441055744 (-51)) (initial [])
    = (Return r2, initial []) /\
    feq r1 (SFopp r2) = true.
Proof.
  apply (subtract_swap_negates
           (S754_finite false 6755399441055744 (-51))
           (S754_finite false 7205759403792794 (-56)) (initial []));
    reflexivity.
Defined.

(** X10. [subtract(a, a)] is positive zero for every finite double [a],
    the zeros included. *)
Theorem subtract_self_is_zero (a : PyFloat.float) (w : world) :
  is_finite a = true ->
  subtract a a w = (Return (S754_zero false), w).
Proof. intros Ha. unfold subtract, ret. now rewrite fsub_diag. Qed.

Lemma subtract_self_is_zero_witness :
  subtract (S754_finite true 7205759403792794 (-56))
    (S754_finite true 7205759403792794 (-56)) (initial [])
  = (Return (S754_zero false), initial []).
Proof.
  apply (subtract_self_is_zero (S754_finite true 7205759403792794 (-56))).
  reflexivity.
Defined.

(** X11. The product of two finite doubles is never a NaN and has the sign
    given by the signs of the factors, negative exactly when they differ;
    this holds for zero factors, for products that underflow to zero and
    for products that overflow to infinity. *)
Theorem multiply_sign (a b : PyFloat.float) (sa sb : bool) (w : world) :
  is_finite a = true ->
  is_finite b = true ->
  sign_bit a = Some sa ->
  sign_bit b = Some sb ->
  exists r,
    multiply a b w = (Return r, w) /\
    sign_bit r = Some (xorb sa sb).
Proof.
  intros Ha Hb Hsa Hsb. exists (fmul a b).
  split; [reflexivity|]. now apply fmul_sign.
Qed.

Lemma multiply_sign_witness :
  exists r,
    multiply (S754_finite true 9007199254740991 971)
      (S754_finite false 9007199254740991 971) (initial [])
    = (Return r, initial []) /\
    sign_bit r = Some (xorb true false).
Proof.
  apply (multiply_sign (S754_finite true 9007199254740991 971)
           (S754_finite false 9007199254740991 971) true false (initial []));
    reflexivity.
Defined.
